(** * Empire: the ECS scheduler and the ELB load-balancer manager

    A shallow embedding of [scheduler/ecs/ecs.go] (package [ecs]) and of the
    ELB manager of package [lb], with the properties of the reconciliation
    core proved over it.

    Conventions of the embedding.
    - Go strings are [string]; [int64] values are [Z]; [uint] values are [Z]
      kept below [2 ^ uintBits], with the wrap-around of the conversions
      written out.
    - A Go [error] is [option GoError]; [None] is [nil].
    - A pointer field of an AWS structure ([*string], [*int64], a pointer to
      a structure) is an [option]; dereferencing [None] is a run-time panic,
      which the model keeps as an outcome of its own.  Elements of slices
      of structures are taken as present, except where the code itself tests
      them against [nil].
    - A Go [map[string]V] is a [gmap string V].  The order of a [range] over
      a map is not specified by the language: it is a parameter
      ([MapRange]), constrained only to enumerate the entries once each.
    - A remote backend is a black box whose answer to a call may depend on
      every call made before; the state threaded through the code is the log
      of the calls made so far, each with the answer it received. *)

From Stdlib Require Import Ascii String.
From stdpp Require Import base numbers option list strings gmap fin_maps sets.

Open Scope string_scope.
Open Scope list_scope.
Open Scope Z_scope.

(** ** Go values shared by both packages *)

Module Go.

(** The error values the code builds or inspects: an [awserr.Error] with
    its code and message, or a plain [errors.New] / [fmt.Errorf] value. *)
Inductive GoError : Type :=
| AwsError (code message : string)
| ErrorString (message : string).

#[global] Instance GoError_eq_dec : EqDecision GoError.
Proof. solve_decision. Defined.

Abbreviation error := (option GoError) (only parsing).

(** How a call of a Go function ends: it returns, it panics (nil
    dereference), or, for a loop run with a bound, the bound is reached. *)
Inductive Outcome (A : Type) : Type :=
| Returned (a : A)
| Panicked
| OutOfFuel.
Arguments Returned {A} a.
Arguments Panicked {A}.
Arguments OutOfFuel {A}.

(** [*p] for a pointer [p]. *)
Definition deref {A : Type} (p : option A) : Outcome A :=
  match p with
  | Some a => Returned a
  | None => Panicked
  end.

#[global] Instance Outcome_ret : MRet Outcome := fun A a => Returned a.
#[global] Instance Outcome_bind : MBind Outcome := fun A B k o =>
  match o with
  | Returned a => k a
  | Panicked => Panicked
  | OutOfFuel => OutOfFuel
  end.

(** The iteration order of [range] over a map. *)
Class MapRange : Type := {
  rangeMap : ∀ {V : Type}, gmap string V → list (string * V);
  rangeMap_perm : ∀ {V : Type} (m : gmap string V), rangeMap m ≡ₚ map_to_list m
}.

(** One admissible order: the order of the map's own enumeration. *)
Definition canonicalRange : MapRange :=
  {| rangeMap := fun V m => map_to_list m;
     rangeMap_perm := fun V m => reflexivity (map_to_list m) |}.

(** Width of [uint]: 32 or 64 bits, depending on the platform. *)
Class Arch : Type := {
  uintBits : Z;
  uintBits_cases : uintBits = 32 ∨ uintBits = 64
}.

Definition amd64 : Arch := {| uintBits := 64; uintBits_cases := or_intror eq_refl |}.
Definition i386 : Arch := {| uintBits := 32; uintBits_cases := or_introl eq_refl |}.

(** [uint(x)] for an [int64] (or wider intermediate) [x]. *)
Definition to_uint `{Arch} (x : Z) : Z := x mod 2 ^ uintBits.

(** [int64(x)]: the two's complement reading of the low 64 bits. *)
Definition to_int64 (x : Z) : Z := (x + 2 ^ 63) mod 2 ^ 64 - 2 ^ 63.

(** [strings.Join(elems, sep)]. *)
Fixpoint Join (elems : list string) (sep : string) : string :=
  match elems with
  | [] => ""
  | [s] => s
  | s :: rest => s +:+ sep +:+ Join rest sep
  end.

(** [fmt.Sprintf("%s is required", n)] and similar one-verb formats are
    written with [+:+]. *)

End Go.

Export Go.

(** ** Package [ecs]: the scheduler over a process manager *)

Module Ecs.

(** *** The [scheduler] model, as [ecs.go] uses it

    [scheduler.Process], [scheduler.App] and the port pairs, with the
    fields the package reads or writes.  [Image] stands for the rendering
    [p.Image.String()].  [Instances], [MemoryLimit] and [CPUShares] are
    [uint]. *)

Record PortMap : Type := {
  Host : option Z;
  Container : option Z
}.

Record Process : Type := {
  Type_ : string;
  Image : string;
  Command : string;
  Env : gmap string string;
  Ports : list PortMap;
  Instances : Z;
  MemoryLimit : Z;
  CPUShares : Z;
  LoadBalancer : string
}.

Record App : Type := {
  ID : string;
  Processes : list Process
}.

(** [aws.Config], opaque to this package. *)
Record AwsConfig : Type := { Region : string }.

Record Config : Type := {
  Cluster : string;
  ServiceRole : string;
  VPC : string;
  ZoneID : string;
  InternalSecurityGroupID : string;
  ExternalSecurityGroupID : string;
  InternalSubnetIDs : list string;
  ExternalSubnetIDs : list string;
  AWS : option AwsConfig
}.

(** *** Structures of the ECS API ([aws-sdk-go/service/ecs])

    Field names carry a prefix for the structure they belong to. *)

Record KeyValuePair : Type := {
  kvName : option string;
  kvValue : option string
}.

Record PortMapping : Type := {
  pmHostPort : option Z;
  pmContainerPort : option Z
}.

Record ContainerDefinition : Type := {
  cdName : option string;
  cdCpu : option Z;
  cdCommand : list (option string);
  cdImage : option string;
  cdEssential : option bool;
  cdMemory : option Z;
  cdEnvironment : list (option KeyValuePair);
  cdPortMappings : list PortMapping
}.

Record RegisterTaskDefinitionInput : Type := {
  rtdFamily : option string;
  rtdContainerDefinitions : list ContainerDefinition
}.

Record TaskDefinition : Type := {
  tdFamily : option string;
  tdContainerDefinitions : list ContainerDefinition
}.

Record UpdateServiceInput : Type := {
  usCluster : option string;
  usDesiredCount : option Z;
  usService : option string;
  usTaskDefinition : option string
}.

Record DeleteServiceInput : Type := {
  dsCluster : option string;
  dsService : option string
}.

(** *** Backends and their call logs *)

(** The calls [Scheduler.Submit] makes on its [ProcessManager], each with
    the answer it received. *)
Inductive PMEvent : Type :=
| EvProcesses (app : string) (res : list Process * error)
| EvCreateProcess (app : App) (p : Process) (res : error)
| EvRemoveProcess (app process : string) (res : error).

(** The [ProcessManager] interface (the three methods reconciliation
    uses).  Each method sees the log of the calls made before. *)
Class ProcessManager : Type := {
  PM_Processes : list PMEvent → string → list Process * error;
  PM_CreateProcess : list PMEvent → App → Process → error;
  PM_RemoveProcess : list PMEvent → string → string → error
}.

(** The calls [ecsProcessManager] makes on [ecsutil.Client] when scaling
    and removing a service.  The response structures are discarded by the
    callers ([_, err := ...]); only the error is kept. *)
Inductive EcsEvent : Type :=
| EvUpdateAppService (app : string) (input : UpdateServiceInput) (err : error)
| EvDeleteAppService (app : string) (input : DeleteServiceInput) (err : error).

Class EcsClient : Type := {
  UpdateAppService : list EcsEvent → string → UpdateServiceInput → error;
  DeleteAppService : list EcsEvent → string → DeleteServiceInput → error
}.

Record ecsProcessManager : Type := {
  cluster : string;
  serviceRole : string
}.

(** *** Configuration validation and construction *)

Definition validateLoadBalancedConfig (c : Config) : error :=
  let r := fun n : string => Some (ErrorString (n +:+ " is required")) in
  if decide (Cluster c = "") then r "Cluster"
  else if decide (ServiceRole c = "") then r "ServiceRole"
  else if decide (ZoneID c = "") then r "ZoneID"
  else if decide (InternalSecurityGroupID c = "") then r "InternalSecurityGroupID"
  else if decide (ExternalSecurityGroupID c = "") then r "ExternalSecurityGroupID"
  else if decide (length (InternalSubnetIDs c) = 0%nat) then r "InternalSubnetIDs"
  else if decide (length (ExternalSubnetIDs c) = 0%nat) then r "ExternalSubnetIDs"
  else None.

(** What [NewLoadBalancedScheduler] builds: the backend clients it
    constructs, in order, and the composition of managers it returns. *)
Inductive Construction : Type :=
| NewClient (cfg : option AwsConfig)
| NewELBManager (cfg : option AwsConfig)
| NewRoute53Nameserver (cfg : option AwsConfig).

Inductive LBManagerDesc : Type :=
| ELBManagerDesc (internalSG externalSG : string) (internalSubnets externalSubnets : list string)
| WithCNAME (inner : LBManagerDesc) (zoneID : string)
| WithLogging (inner : LBManagerDesc).

Inductive ProcessManagerDesc : Type :=
| EcsPM (m : ecsProcessManager)
| LBProcessManager (inner : ProcessManagerDesc) (lb : LBManagerDesc).

Record Scheduler : Type := {
  schedCluster : string;
  schedProcessManager : ProcessManagerDesc
}.

Definition NewLoadBalancedScheduler (config : Config)
  : list Construction * (option Scheduler * error) :=
  match validateLoadBalancedConfig config with
  | Some err => ([], (None, Some err))
  | None =>
    let pm := EcsPM {| cluster := Cluster config; serviceRole := ServiceRole config |} in
    let elb := ELBManagerDesc (InternalSecurityGroupID config) (ExternalSecurityGroupID config)
                 (InternalSubnetIDs config) (ExternalSubnetIDs config) in
    let lbm := WithLogging (WithCNAME elb (ZoneID config)) in
    ([NewClient (AWS config); NewELBManager (AWS config); NewRoute53Nameserver (AWS config)],
     (Some {| schedCluster := Cluster config;
              schedProcessManager := LBProcessManager pm lbm |}, None))
  end.

(** The requirement as the configuration contract words it: the required
    fields in order, each with whether it is missing. *)
Definition requiredFields (c : Config) : list (string * bool) :=
  [ ("Cluster", bool_decide (Cluster c = ""));
    ("ServiceRole", bool_decide (ServiceRole c = ""));
    ("ZoneID", bool_decide (ZoneID c = ""));
    ("InternalSecurityGroupID", bool_decide (InternalSecurityGroupID c = ""));
    ("ExternalSecurityGroupID", bool_decide (ExternalSecurityGroupID c = ""));
    ("InternalSubnetIDs", bool_decide (InternalSubnetIDs c = []));
    ("ExternalSubnetIDs", bool_decide (ExternalSubnetIDs c = [])) ].

Definition firstMissing (c : Config) : option string :=
  fst <$> head (filter (fun f => snd f = true) (requiredFields c)).

(** *** Reconciliation: [processTypes], [diffProcessTypes], [Submit] *)

Section Reconcile.
Context `{MapRange}.

Definition processTypes (processes : list Process) : gmap string unit :=
  foldl (fun m p => <[Type_ p := tt]> m) ∅ processes.

Definition diffProcessTypes (old new : list Process) : list string :=
  let om := processTypes old in
  let nm := processTypes new in
  foldl (fun (types : list string) '(t, _) =>
           match nm !! t with
           | Some _ => types
           | None => types ++ [t]
           end) [] (rangeMap om).

Context `{ProcessManager}.

Definition Processes_call (app : string) (h : list PMEvent)
  : (list Process * error) * list PMEvent :=
  let r := PM_Processes h app in (r, h ++ [EvProcesses app r]).

Definition CreateProcess_call (app : App) (p : Process) (h : list PMEvent)
  : error * list PMEvent :=
  let r := PM_CreateProcess h app p in (r, h ++ [EvCreateProcess app p r]).

Definition RemoveProcess_call (app process : string) (h : list PMEvent)
  : error * list PMEvent :=
  let r := PM_RemoveProcess h app process in (r, h ++ [EvRemoveProcess app process r]).

(** [for _, p := range app.Processes { if err := m.CreateProcess(...) ... }] *)
Fixpoint Submit_create (app : App) (ps : list Process) (h : list PMEvent)
  : error * list PMEvent :=
  match ps with
  | [] => (None, h)
  | p :: rest =>
    match CreateProcess_call app p h with
    | (Some err, h1) => (Some err, h1)
    | (None, h1) => Submit_create app rest h1
    end
  end.

(** [for _, p := range toRemove { if err := m.RemoveProcess(...) ... }] *)
Fixpoint Submit_remove (appID : string) (toRemove : list string) (h : list PMEvent)
  : error * list PMEvent :=
  match toRemove with
  | [] => (None, h)
  | p :: rest =>
    match RemoveProcess_call appID p h with
    | (Some err, h1) => (Some err, h1)
    | (None, h1) => Submit_remove appID rest h1
    end
  end.

Definition Submit (app : App) (h : list PMEvent) : error * list PMEvent :=
  match Processes_call (ID app) h with
  | ((_, Some err), h1) => (Some err, h1)
  | ((processes, None), h1) =>
    match Submit_create app (Processes app) h1 with
    | (Some err, h2) => (Some err, h2)
    | (None, h2) =>
      let toRemove := diffProcessTypes processes (Processes app) in
      Submit_remove (ID app) toRemove h2
    end
  end.

(** A log is faithful when every event in it carries the answer the
    process manager gives at that point. *)
Definition answered (h : list PMEvent) (ev : PMEvent) : Prop :=
  match ev with
  | EvProcesses app res => res = PM_Processes h app
  | EvCreateProcess app p res => res = PM_CreateProcess h app p
  | EvRemoveProcess app process res => res = PM_RemoveProcess h app process
  end.

Fixpoint faithful (h : list PMEvent) (evs : list PMEvent) : Prop :=
  match evs with
  | [] => True
  | ev :: rest => answered h ev ∧ faithful (h ++ [ev]) rest
  end.

End Reconcile.

(** What a sequence of attempts over [items] leaves in the log: one event
    per item, in order, up to and including the first that failed; the
    result is that failure, or [nil] when every item went through. *)
Inductive attempts {X : Type} (ev : X → error → PMEvent)
  : list X → list PMEvent → error → Prop :=
| attempts_done : attempts ev [] [] None
| attempts_next x items evs res :
    attempts ev items evs res → attempts ev (x :: items) (ev x None :: evs) res
| attempts_failed x items err :
    attempts ev (x :: items) [ev x (Some err)] (Some err).

(** *** Removing a service *)

Definition noService (err : error) : bool :=
  match err with
  | Some (AwsError _ message) =>
    if decide (message = "Service was not ACTIVE.") then true
    else if decide (message = "Could not find returned type com.amazon.madison.cmb#CMServiceNotActiveException in model") then true
    else if decide (message = "Could not find returned type com.amazon.madison.cmb#CMServiceNotFoundException in model") then true
    else if decide (message = "Service not found.") then true
    else false
  | _ => false
  end.

(** The known not-found messages, as a list. *)
Definition notFoundMessages : list string :=
  [ "Service was not ACTIVE.";
    "Could not find returned type com.amazon.madison.cmb#CMServiceNotActiveException in model";
    "Could not find returned type com.amazon.madison.cmb#CMServiceNotFoundException in model";
    "Service not found." ].

Section Remove.
Context `{EcsClient}.

Definition Scale (m : ecsProcessManager) (app process : string) (instances : Z)
  (h : list EcsEvent) : error * list EcsEvent :=
  let input := {| usCluster := Some (cluster m);
                  usDesiredCount := Some (to_int64 instances);
                  usService := Some process;
                  usTaskDefinition := None |} in
  let err := UpdateAppService h app input in
  (err, h ++ [EvUpdateAppService app input err]).

Definition RemoveProcess (m : ecsProcessManager) (app process : string)
  (h : list EcsEvent) : error * list EcsEvent :=
  let '(err, h1) := Scale m app process 0 h in
  if noService err then (None, h1)
  else match err with
  | Some _ => (err, h1)
  | None =>
    let input := {| dsCluster := Some (cluster m); dsService := Some process |} in
    let err := DeleteAppService h1 app input in
    let h2 := h1 ++ [EvDeleteAppService app input err] in
    if noService err then (None, h2) else (err, h2)
  end.

End Remove.

(** *** Task definitions

    [bytesize.MB] is declared outside these sources: it is taken as a
    positive [uint] constant. *)
Class Bytesize `{Arch} : Type := {
  MB : Z;
  MB_range : 0 < MB < 2 ^ uintBits
}.

Definition safeString (s : option string) : string :=
  match s with
  | None => ""
  | Some s => s
  end.

Section TaskDefinitions.
Context `{MapRange} `{Bytesize}.

(** [shellwords.Parse], a third-party tokenizer: a parameter here. *)
Variable Parse : string → list string * error.

Definition taskDefinitionInput (p : Process)
  : option RegisterTaskDefinitionInput * error :=
  match Parse (Command p) with
  | (_, Some err) => (None, Some err)
  | (args, None) =>
    let command :=
      foldl (fun (command : list (option string)) s => command ++ [Some s]) [] args in
    let environment :=
      foldl (fun (environment : list (option KeyValuePair)) '(k, v) =>
               environment ++ [Some {| kvName := Some k; kvValue := Some v |}])
            [] (rangeMap (Env p)) in
    let ports :=
      foldl (fun (ports : list PortMapping) m =>
               ports ++ [{| pmHostPort := Host m; pmContainerPort := Container m |}])
            [] (Ports p) in
    (Some {| rtdFamily := Some (Type_ p);
             rtdContainerDefinitions :=
               [ {| cdName := Some (Type_ p);
                    cdCpu := Some (to_int64 (CPUShares p));
                    cdCommand := command;
                    cdImage := Some (Image p);
                    cdEssential := Some true;
                    cdMemory := Some (to_int64 (MemoryLimit p / MB));
                    cdEnvironment := environment;
                    cdPortMappings := ports |} ] |}, None)
  end.

(** [for _, s := range container.Command { command = append(command, *s) }] *)
Fixpoint commandStrings (cmd : list (option string)) (command : list string)
  : Outcome (list string) :=
  match cmd with
  | [] => Returned command
  | s :: rest => s' ← deref s; commandStrings rest (command ++ [s'])
  end.

Definition taskDefinitionToProcess (td : TaskDefinition)
  : Outcome (option Process * error) :=
  match tdContainerDefinitions td with
  | [] => Returned (None, Some (ErrorString "task definition had no container definitions"))
  | container :: _ =>
    command ← commandStrings (cdCommand container) [];
    let env :=
      foldl (fun (env : gmap string string) kvp =>
               match kvp with
               | Some kvp => <[safeString (kvName kvp) := safeString (kvValue kvp)]> env
               | None => env
               end) ∅ (cdEnvironment container) in
    cpu ← deref (cdCpu container);
    memory ← deref (cdMemory container);
    Returned (Some {| Type_ := safeString (cdName container);
                      Image := "";
                      Command := Join command " ";
                      Env := env;
                      Ports := [];
                      Instances := 0;
                      MemoryLimit := to_uint (to_uint memory * MB);
                      CPUShares := to_uint cpu;
                      LoadBalancer := "" |}, None)
  end.

(** The task definition the backend holds once [input] is registered:
    the family and the container definitions it was given. *)
Definition registered (input : RegisterTaskDefinitionInput) : TaskDefinition :=
  {| tdFamily := rtdFamily input;
     tdContainerDefinitions := rtdContainerDefinitions input |}.

(** A process converted to a task definition and back. *)
Definition roundTrip (p : Process) : Outcome (option Process * error) :=
  match taskDefinitionInput p with
  | (Some input, None) => taskDefinitionToProcess (registered input)
  | (_, err) => Returned (None, err)
  end.

End TaskDefinitions.

End Ecs.

(** ** The tokenizer behind [shellwords.Parse]

    Modelled from the spec: [shellwords.Parse], of the third-party package
    [github.com/mattn/go-shellwords], is not among the sources; the
    specification has the command parsed into shell words.  The model
    follows the package with its default settings (no environment or
    backtick expansion): white space separates words, single and double
    quotes group, a backslash escapes the next character outside single
    quotes.  The statements over [taskDefinitionInput] hold for every
    tokenizer; this one is only evaluated on concrete commands. *)

Module Shellwords.

Record state : Type := {
  args : list string;
  buf : string;
  escaped : bool;
  doubleQuoted : bool;
  singleQuoted : bool;
  backQuote : bool
}.

Definition isSpace (r : ascii) : bool :=
  bool_decide (r = " "%char) || bool_decide (r = "009"%char)
  || bool_decide (r = "013"%char) || bool_decide (r = "010"%char).

Definition push (st : state) (r : ascii) : state :=
  {| args := args st; buf := buf st +:+ String r "";
     escaped := escaped st; doubleQuoted := doubleQuoted st;
     singleQuoted := singleQuoted st; backQuote := backQuote st |}.

Definition step (st : state) (r : ascii) : state :=
  if escaped st then
    {| args := args st; buf := buf st +:+ String r "";
       escaped := false; doubleQuoted := doubleQuoted st;
       singleQuoted := singleQuoted st; backQuote := backQuote st |}
  else if bool_decide (r = "\"%char) then
    if singleQuoted st then push st r
    else {| args := args st; buf := buf st;
            escaped := true; doubleQuoted := doubleQuoted st;
            singleQuoted := singleQuoted st; backQuote := backQuote st |}
  else if isSpace r then
    if singleQuoted st || doubleQuoted st || backQuote st then push st r
    else if bool_decide (buf st = "") then st
    else {| args := args st ++ [buf st]; buf := "";
            escaped := escaped st; doubleQuoted := doubleQuoted st;
            singleQuoted := singleQuoted st; backQuote := backQuote st |}
  else if bool_decide (r = "`"%char) then
    if negb (singleQuoted st) && negb (doubleQuoted st) then
      push {| args := args st; buf := buf st;
              escaped := escaped st; doubleQuoted := doubleQuoted st;
              singleQuoted := singleQuoted st; backQuote := negb (backQuote st) |} r
    else push st r
  else if bool_decide (r = "034"%char) then
    if negb (singleQuoted st) then
      {| args := args st; buf := buf st;
         escaped := escaped st; doubleQuoted := negb (doubleQuoted st);
         singleQuoted := singleQuoted st; backQuote := backQuote st |}
    else push st r
  else if bool_decide (r = "'"%char) then
    if negb (doubleQuoted st) then
      {| args := args st; buf := buf st;
         escaped := escaped st; doubleQuoted := doubleQuoted st;
         singleQuoted := negb (singleQuoted st); backQuote := backQuote st |}
    else push st r
  else push st r.

Fixpoint scan (line : string) (st : state) : state :=
  match line with
  | EmptyString => st
  | String r rest => scan rest (step st r)
  end.

Definition Parse (line : string) : list string * error :=
  let st := scan line {| args := []; buf := ""; escaped := false;
                         doubleQuoted := false; singleQuoted := false;
                         backQuote := false |} in
  let args := if bool_decide (buf st = "") then args st else args st ++ [buf st] in
  if escaped st || singleQuoted st || doubleQuoted st || backQuote st
  then ([], Some (ErrorString "invalid command line string"))
  else (args, None).

End Shellwords.

(** ** Package [lb]: the ELB manager *)

Module Lb.

Definition schemeInternal : string := "internal".
Definition schemeExternal : string := "internet-facing".

Definition defaultConnectionDrainingTimeout : Z := 30.

(** *** The [lb] model: [LoadBalancer] and [CreateLoadBalancerOpts] *)

Record LoadBalancer : Type := {
  Name : string;
  DNSName : string;
  External : bool;
  SSLCert : string;
  InstancePort : Z;
  Tags : gmap string string
}.

Record CreateLoadBalancerOpts : Type := {
  optsInstancePort : Z;
  optsTags : gmap string string;
  optsExternal : bool;
  optsSSLCert : string
}.

(** *** Structures of the ELB API ([aws-sdk-go/service/elb]) *)

Record Listener : Type := {
  lInstancePort : option Z;
  lInstanceProtocol : option string;
  lLoadBalancerPort : option Z;
  lProtocol : option string;
  lSSLCertificateId : option string
}.

Record ListenerDescription : Type := {
  ldListener : option Listener;
  ldPolicyNames : list (option string)
}.

Record Tag : Type := {
  tagKey : option string;
  tagValue : option string
}.

Record LoadBalancerDescription : Type := {
  lbdLoadBalancerName : option string;
  lbdDNSName : option string;
  lbdScheme : option string;
  lbdListenerDescriptions : list ListenerDescription
}.

Record TagDescription : Type := {
  tgdLoadBalancerName : option string;
  tgdTags : list Tag
}.

Record CreateLoadBalancerInput : Type := {
  clbListeners : list Listener;
  clbLoadBalancerName : option string;
  clbScheme : option string;
  clbSecurityGroups : list (option string);
  clbSubnets : list (option string);
  clbTags : list Tag
}.

Record CreateLoadBalancerOutput : Type := {
  clbDNSName : option string
}.

Record ConnectionDraining : Type := {
  cdEnabled : option bool;
  cdTimeout : option Z
}.

Record CrossZoneLoadBalancing : Type := {
  czEnabled : option bool
}.

Record LoadBalancerAttributes : Type := {
  attrConnectionDraining : option ConnectionDraining;
  attrCrossZoneLoadBalancing : option CrossZoneLoadBalancing
}.

Record ModifyLoadBalancerAttributesInput : Type := {
  mlbLoadBalancerAttributes : option LoadBalancerAttributes;
  mlbLoadBalancerName : option string
}.

Record DescribeLoadBalancersInput : Type := {
  dlbMarker : option string;
  dlbPageSize : option Z
}.

Record DescribeLoadBalancersOutput : Type := {
  dlbLoadBalancerDescriptions : list LoadBalancerDescription;
  dlbNextMarker : option string
}.

Record DescribeTagsInput : Type := {
  dtLoadBalancerNames : list (option string)
}.

Record DescribeTagsOutput : Type := {
  dtTagDescriptions : list TagDescription
}.

(** *** The ELB backend and its call log *)

Inductive ELBEvent : Type :=
| EvCreateLoadBalancer (input : CreateLoadBalancerInput)
    (res : CreateLoadBalancerOutput * error)
| EvModifyLoadBalancerAttributes (input : ModifyLoadBalancerAttributesInput)
    (err : error)
| EvDescribeLoadBalancers (input : DescribeLoadBalancersInput)
    (res : DescribeLoadBalancersOutput * error)
| EvDescribeTags (input : DescribeTagsInput) (res : DescribeTagsOutput * error).

Class ELBClient : Type := {
  ELB_CreateLoadBalancer :
    list ELBEvent → CreateLoadBalancerInput → CreateLoadBalancerOutput * error;
  ELB_ModifyLoadBalancerAttributes :
    list ELBEvent → ModifyLoadBalancerAttributesInput → error;
  ELB_DescribeLoadBalancers :
    list ELBEvent → DescribeLoadBalancersInput → DescribeLoadBalancersOutput * error;
  ELB_DescribeTags :
    list ELBEvent → DescribeTagsInput → DescribeTagsOutput * error
}.

(** [ELBManager]; [newName] draws a fresh name, which may differ from one
    call to the next: it reads the log. *)
Record ELBManager : Type := {
  InternalSecurityGroupID : string;
  ExternalSecurityGroupID : string;
  InternalSubnetIDs : list string;
  ExternalSubnetIDs : list string;
  newName : list ELBEvent → string
}.

(** *** Helpers *)

Definition awsStringSlice (ss : list string) : list (option string) :=
  map Some ss.

Definition internalSubnets (m : ELBManager) : list (option string) :=
  awsStringSlice (InternalSubnetIDs m).

Definition externalSubnets (m : ELBManager) : list (option string) :=
  awsStringSlice (ExternalSubnetIDs m).

Definition elbListeners (port : Z) (certID : string) : list Listener :=
  let listeners :=
    [ {| lInstancePort := Some port;
         lInstanceProtocol := Some "http";
         lLoadBalancerPort := Some 80;
         lProtocol := Some "http";
         lSSLCertificateId := None |} ] in
  if decide (certID ≠ "") then
    listeners ++ [ {| lInstancePort := Some port;
                      lInstanceProtocol := Some "http";
                      lLoadBalancerPort := Some 443;
                      lProtocol := Some "https";
                      lSSLCertificateId := Some certID |} ]
  else listeners.

Definition elbTag (k v : string) : Tag :=
  {| tagKey := Some k; tagValue := Some v |}.

(** [for _, t := range tags { tagMap[*t.Key] = *t.Value }] *)
Fixpoint mapTags_loop (tags : list Tag) (tagMap : gmap string string)
  : Outcome (gmap string string) :=
  match tags with
  | [] => Returned tagMap
  | t :: rest =>
    k ← deref (tagKey t);
    v ← deref (tagValue t);
    mapTags_loop rest (<[k := v]> tagMap)
  end.

Definition mapTags (tags : list Tag) : Outcome (gmap string string) :=
  mapTags_loop tags ∅.

Fixpoint containsTag (t : Tag) (tags : list Tag) : Outcome bool :=
  match tags with
  | [] => Returned false
  | t2 :: rest =>
    k ← deref (tagKey t);
    k2 ← deref (tagKey t2);
    if decide (k = k2) then
      v ← deref (tagValue t);
      v2 ← deref (tagValue t2);
      if decide (v = v2) then Returned true else containsTag t rest
    else containsTag t rest
  end.

(** [for k, v := range a { if !containsTag(elbTag(k, v), b) { return false } }] *)
Fixpoint containsTags_loop (a : list (string * string)) (b : list Tag)
  : Outcome bool :=
  match a with
  | [] => Returned true
  | (k, v) :: rest =>
    found ← containsTag (elbTag k v) b;
    if found : bool then containsTags_loop rest b else Returned false
  end.

Section Manager.
Context `{MapRange} `{ELBClient}.

Definition elbTags (tags : gmap string string) : list Tag :=
  foldl (fun (e : list Tag) '(k, v) => e ++ [elbTag k v]) [] (rangeMap tags).

Definition containsTags (a : gmap string string) (b : list Tag) : Outcome bool :=
  containsTags_loop (rangeMap a) b.

(** *** [CreateLoadBalancer] *)

Definition CreateLoadBalancer (m : ELBManager) (o : CreateLoadBalancerOpts)
  (h : list ELBEvent) : Outcome (option LoadBalancer * error) * list ELBEvent :=
  let '(scheme, sg, subnets) :=
    if optsExternal o
    then (schemeExternal, ExternalSecurityGroupID m, externalSubnets m)
    else (schemeInternal, InternalSecurityGroupID m, internalSubnets m) in
  let input :=
    {| clbListeners := elbListeners (optsInstancePort o) (optsSSLCert o);
       clbLoadBalancerName := Some (newName m h);
       clbScheme := Some scheme;
       clbSecurityGroups := [Some sg];
       clbSubnets := subnets;
       clbTags := elbTags (optsTags o) |} in
  let '(out, err) := ELB_CreateLoadBalancer h input in
  let h1 := h ++ [EvCreateLoadBalancer input (out, err)] in
  match err with
  | Some _ => (Returned (None, err), h1)
  | None =>
    let attrs :=
      {| mlbLoadBalancerAttributes :=
           Some {| attrConnectionDraining :=
                     Some {| cdEnabled := Some true;
                             cdTimeout := Some defaultConnectionDrainingTimeout |};
                   attrCrossZoneLoadBalancing :=
                     Some {| czEnabled := Some true |} |};
         mlbLoadBalancerName := clbLoadBalancerName input |} in
    let err := ELB_ModifyLoadBalancerAttributes h1 attrs in
    let h2 := h1 ++ [EvModifyLoadBalancerAttributes attrs err] in
    match err with
    | Some _ => (Returned (None, err), h2)
    | None =>
      (name ← deref (clbLoadBalancerName input);
       dns ← deref (clbDNSName out);
       Returned (Some {| Name := name;
                         DNSName := dns;
                         External := optsExternal o;
                         SSLCert := optsSSLCert o;
                         InstancePort := optsInstancePort o;
                         Tags := ∅ |}, None), h2)
    end
  end.

(** *** [LoadBalancers] *)

(** The loop filling [names] and [descs] from a page. *)
Fixpoint namesAndDescs (ds : list LoadBalancerDescription)
  (names : list (option string)) (descs : gmap string LoadBalancerDescription)
  : Outcome (list (option string) * gmap string LoadBalancerDescription) :=
  match ds with
  | [] => Returned (names, descs)
  | d :: rest =>
    n ← deref (lbdLoadBalancerName d);
    namesAndDescs rest (names ++ [lbdLoadBalancerName d]) (<[n := d]> descs)
  end.

(** [for _, ld := range elb.ListenerDescriptions { if ld.Listener.SSLCertificateId != nil ... }] *)
Fixpoint lastCertificate (lds : list ListenerDescription) (sslCert : string)
  : Outcome string :=
  match lds with
  | [] => Returned sslCert
  | ld :: rest =>
    l ← deref (ldListener ld);
    lastCertificate rest (match lSSLCertificateId l with
                          | Some c => c
                          | None => sslCert
                          end)
  end.

Definition listenerSummary (lds : list ListenerDescription) : Outcome (Z * string) :=
  match lds with
  | [] => Returned (0, "")
  | ld0 :: _ =>
    l ← deref (ldListener ld0);
    instancePort ← deref (lInstancePort l);
    sslCert ← lastCertificate lds "";
    Returned (instancePort, sslCert)
  end.

(** [for _, d := range out2.TagDescriptions { if containsTags(tags, d.Tags) { ... } }] *)
Fixpoint appendMatching (tags : gmap string string)
  (descs : gmap string LoadBalancerDescription) (tds : list TagDescription)
  (lbs : list LoadBalancer) : Outcome (list LoadBalancer) :=
  match tds with
  | [] => Returned lbs
  | d :: rest =>
    matches ← containsTags tags (tgdTags d);
    if matches : bool then
      n ← deref (tgdLoadBalancerName d);
      elb ← deref (descs !! n);
      summary ← listenerSummary (lbdListenerDescriptions elb);
      name ← deref (lbdLoadBalancerName elb);
      dns ← deref (lbdDNSName elb);
      scheme ← deref (lbdScheme elb);
      tagMap ← mapTags (tgdTags d);
      appendMatching tags descs rest
        (lbs ++ [ {| Name := name;
                     DNSName := dns;
                     External := bool_decide (scheme = schemeExternal);
                     SSLCert := snd summary;
                     InstancePort := fst summary;
                     Tags := tagMap |} ])
    else appendMatching tags descs rest lbs
  end.

(** The [for { ... }] of [LoadBalancers], run for at most [fuel] pages. *)
Fixpoint LoadBalancers_loop (fuel : nat) (tags : gmap string string)
  (nextMarker : option string) (lbs : list LoadBalancer) (h : list ELBEvent)
  : Outcome (list LoadBalancer * error) * list ELBEvent :=
  match fuel with
  | O => (OutOfFuel, h)
  | S fuel' =>
    let input := {| dlbMarker := nextMarker; dlbPageSize := Some 20 |} in
    let '(out, err) := ELB_DescribeLoadBalancers h input in
    let h1 := h ++ [EvDescribeLoadBalancers input (out, err)] in
    match err with
    | Some _ => (Returned ([], err), h1)
    | None =>
      if decide (length (dlbLoadBalancerDescriptions out) = 0%nat)
      then (Returned (lbs, None), h1)
      else
        match namesAndDescs (dlbLoadBalancerDescriptions out) [] ∅ with
        | Returned (names, descs) =>
          let input2 := {| dtLoadBalancerNames := names |} in
          let '(out2, err) := ELB_DescribeTags h1 input2 in
          let h2 := h1 ++ [EvDescribeTags input2 (out2, err)] in
          match err with
          | Some _ => (Returned (lbs, err), h2)
          | None =>
            match appendMatching tags descs (dtTagDescriptions out2) lbs with
            | Returned lbs' =>
              match dlbNextMarker out with
              | None => (Returned (lbs', None), h2)
              | Some marker =>
                if decide (marker = "") then (Returned (lbs', None), h2)
                else LoadBalancers_loop fuel' tags (Some marker) lbs' h2
              end
            | Panicked => (Panicked, h2)
            | OutOfFuel => (OutOfFuel, h2)
            end
          end
        | Panicked => (Panicked, h1)
        | OutOfFuel => (OutOfFuel, h1)
        end
    end
  end.

Definition LoadBalancers (m : ELBManager) (tags : gmap string string)
  (fuel : nat) (h : list ELBEvent)
  : Outcome (list LoadBalancer * error) * list ELBEvent :=
  LoadBalancers_loop fuel tags None [] h.

End Manager.

End Lb.

(** ** Concrete processes, configurations and backends

    The inputs the statements below are evaluated on. *)

Module Examples.
Import Ecs.

Definition proc (t : string) : Process :=
  {| Type_ := t; Image := "acme/app:latest"; Command := "acme-inc " +:+ t;
     Env := ∅; Ports := []; Instances := 1; MemoryLimit := 0; CPUShares := 0;
     LoadBalancer := "" |}.

(** A process manager on which the service of [worker] cannot be created
    or updated; it reports the processes web and clock as provisioned. *)
Definition workerFails : ProcessManager :=
  {| PM_Processes := fun _ _ => ([proc "web"; proc "clock"], None);
     PM_CreateProcess := fun _ _ p =>
       if decide (Type_ p = "worker") then Some (ErrorString "no capacity") else None;
     PM_RemoveProcess := fun _ _ _ => None |}.

Definition acme : App :=
  {| ID := "acme"; Processes := [proc "web"; proc "worker"; proc "cron"] |}.

(** A process manager that cannot list the processes of an app; creating
    and removing would go through. *)
Definition listingFails : ProcessManager :=
  {| PM_Processes := fun _ _ => ([], Some (ErrorString "throttled"));
     PM_CreateProcess := fun _ _ _ => None;
     PM_RemoveProcess := fun _ _ _ => None |}.

(** A process manager that reports clock and mailer as provisioned and on
    which no service can be removed. *)
Definition removalFails : ProcessManager :=
  {| PM_Processes := fun _ _ => ([proc "clock"; proc "mailer"], None);
     PM_CreateProcess := fun _ _ _ => None;
     PM_RemoveProcess := fun _ _ _ => Some (ErrorString "service is draining") |}.

Definition webOnly : App := {| ID := "acme"; Processes := [proc "web"] |}.

(** An ECS client that knows no service at all. *)
Definition noSuchService : EcsClient :=
  {| UpdateAppService := fun _ _ _ => Some (AwsError "ClientException" "Service not found.");
     DeleteAppService := fun _ _ _ => Some (AwsError "ClientException" "Service not found.") |}.

(** An ECS client whose service scales down but is already inactive when
    it is deleted. *)
Definition inactiveOnDelete : EcsClient :=
  {| UpdateAppService := fun _ _ _ => None;
     DeleteAppService := fun _ _ _ => Some (AwsError "ClientException" "Service was not ACTIVE.") |}.

(** An ECS client that refuses every update for lack of credentials. *)
Definition accessDenied : EcsClient :=
  {| UpdateAppService := fun _ _ _ => Some (AwsError "AccessDeniedException" "User is not authorized");
     DeleteAppService := fun _ _ _ => None |}.

Definition manager : ecsProcessManager :=
  {| cluster := "empire"; serviceRole := "ecsServiceRole" |}.

(** An ELB manager whose names are all the same, and the options of a
    web process behind a certificate. *)
Definition elbManager : Lb.ELBManager :=
  {| Lb.InternalSecurityGroupID := "sg-internal";
     Lb.ExternalSecurityGroupID := "sg-external";
     Lb.InternalSubnetIDs := ["subnet-a"; "subnet-b"];
     Lb.ExternalSubnetIDs := ["subnet-c"];
     Lb.newName := fun _ => "3c9f6e7a52b14d0f8a1be2c4d5f60718" |}.

Definition secureWeb : Lb.CreateLoadBalancerOpts :=
  {| Lb.optsInstancePort := 9000;
     Lb.optsTags := {[ "AppID" := "acme" ]};
     Lb.optsExternal := true;
     Lb.optsSSLCert := "arn:aws:iam::1:server-certificate/acme" |}.

(** An ELB backend that creates load balancers but refuses to change
    their attributes. *)
Definition attributesRefused : Lb.ELBClient :=
  {| Lb.ELB_CreateLoadBalancer := fun _ _ =>
       ({| Lb.clbDNSName := Some "acme-1.us-east-1.elb.amazonaws.com" |}, None);
     Lb.ELB_ModifyLoadBalancerAttributes := fun _ _ =>
       Some (AwsError "Throttling" "Rate exceeded");
     Lb.ELB_DescribeLoadBalancers := fun _ _ =>
       ({| Lb.dlbLoadBalancerDescriptions := []; Lb.dlbNextMarker := None |}, None);
     Lb.ELB_DescribeTags := fun _ _ => ({| Lb.dtTagDescriptions := [] |}, None) |}.

(** A 64-bit platform with [MB] of 1048576 bytes. *)
Definition mebibyte : @Bytesize amd64.
Proof. refine (@Build_Bytesize amd64 1048576 _). split; reflexivity. Defined.

(** A web process with a quoted argument, one environment variable and a
    memory limit that is not a whole number of megabytes. *)
Definition quotedWeb : Process :=
  {| Type_ := "web"; Image := "acme/app:latest";
     Command := "sh -c 'acme-inc  web'";
     Env := {[ "RAILS_ENV" := "production" ]};
     Ports := [ {| Host := Some 9000; Container := Some 8080 |} ];
     Instances := 2; MemoryLimit := 134217733; CPUShares := 256;
     LoadBalancer := "" |}.

(** A process whose command separates its two words by two spaces. *)
Definition doubleSpace : Process :=
  {| Type_ := "worker"; Image := "acme/app:latest"; Command := "echo  hi";
     Env := ∅; Ports := []; Instances := 1; MemoryLimit := 0; CPUShares := 0;
     LoadBalancer := "" |}.

Definition webContainer : ContainerDefinition :=
  {| cdName := Some "web"; cdCpu := Some 256;
     cdCommand := [Some "acme-inc"; Some "web"];
     cdImage := Some "acme/app:latest"; cdEssential := Some true;
     cdMemory := Some 128;
     cdEnvironment := [Some {| kvName := Some "PORT"; kvValue := Some "8080" |}; None];
     cdPortMappings := [] |}.

Definition sidecarContainer : ContainerDefinition :=
  {| cdName := Some "logger"; cdCpu := None; cdCommand := [None];
     cdImage := None; cdEssential := Some false; cdMemory := None;
     cdEnvironment := []; cdPortMappings := [] |}.

(** A task definition with a second container, and one whose only
    container carries no CPU value. *)
Definition webWithSidecar : TaskDefinition :=
  {| tdFamily := Some "acme--web";
     tdContainerDefinitions := [webContainer; sidecarContainer] |}.

Definition cpuMissing : TaskDefinition :=
  {| tdFamily := Some "acme--logger"; tdContainerDefinitions := [sidecarContainer] |}.

End Examples.

(** * Properties *)

(** ** Reconciliation *)

Module EcsFacts.
Import Ecs Examples.

Section Diff.
Context `{MapRange}.

Lemma processTypes_fold_lookup (ps : list Process) (m : gmap string unit) (t : string) :
  is_Some (foldl (fun m p => <[Type_ p := tt]> m) m ps !! t)
  ↔ is_Some (m !! t) ∨ t ∈ map Type_ ps.
Proof.
  revert m. induction ps as [|p ps IH]; intros m; simpl.
  - rewrite elem_of_nil. tauto.
  - rewrite IH, elem_of_cons.
    destruct (decide (Type_ p = t)) as [->|Hne].
    + rewrite lookup_insert_eq. split; [auto | intros _; left; eauto].
    + rewrite lookup_insert_ne by done. split; intros [?|?]; auto.
      destruct H0; [congruence | auto].
Qed.

Lemma processTypes_lookup (ps : list Process) (t : string) :
  is_Some (processTypes ps !! t) ↔ t ∈ map Type_ ps.
Proof.
  unfold processTypes. rewrite processTypes_fold_lookup, lookup_empty.
  split; [intros [[? ?]|?]; [discriminate | done] | auto].
Qed.

Lemma diff_loop_filter (nm : gmap string unit) (l : list (string * unit)) (acc : list string) :
  foldl (fun (types : list string) '(t, _) =>
           match nm !! t with
           | Some _ => types
           | None => types ++ [t]
           end) acc l
  = acc ++ filter (fun t => nm !! t = None) l.*1.
Proof.
  revert acc. induction l as [|[t u] l IH]; intros acc; simpl.
  - by rewrite app_nil_r.
  - rewrite IH. destruct (nm !! t) eqn:E.
    + rewrite filter_cons_False; [done | by rewrite E].
    + rewrite filter_cons_True by done. by rewrite <- app_assoc.
Qed.

Lemma rangeMap_keys {V : Type} (m : gmap string V) (k : string) :
  k ∈ (rangeMap m).*1 ↔ is_Some (m !! k).
Proof.
  rewrite (rangeMap_perm m). rewrite list_elem_of_fmap. split.
  - intros [[k' v] [-> Hin]]. apply elem_of_map_to_list in Hin. eauto.
  - intros [v Hv]. exists (k, v). split; [done | by apply elem_of_map_to_list].
Qed.

Lemma rangeMap_keys_NoDup {V : Type} (m : gmap string V) : NoDup (rangeMap m).*1.
Proof. rewrite (rangeMap_perm m). apply NoDup_fst_map_to_list. Qed.

Lemma diffProcessTypes_elem (old new : list Process) (t : string) :
  t ∈ diffProcessTypes old new ↔ t ∈ map Type_ old ∧ t ∉ map Type_ new.
Proof.
  unfold diffProcessTypes. rewrite diff_loop_filter, app_nil_l.
  rewrite list_elem_of_filter, rangeMap_keys, processTypes_lookup.
  rewrite <- (processTypes_lookup new), eq_None_not_Some. tauto.
Qed.

Lemma diffProcessTypes_NoDup (old new : list Process) :
  NoDup (diffProcessTypes old new).
Proof.
  unfold diffProcessTypes. rewrite diff_loop_filter, app_nil_l.
  apply NoDup_filter, rangeMap_keys_NoDup.
Qed.

(** C1. The removal set computed by [diffProcessTypes] holds exactly the
    process types that occur in [old] and not in [new], each once; for old
    types web, worker, clock and new types web, worker it is exactly
    clock, whatever the iteration order of the maps. *)
Theorem diffProcessTypes_is_set_difference (old new : list Process) :
  (∀ t, t ∈ diffProcessTypes old new ↔ t ∈ map Type_ old ∧ t ∉ map Type_ new)
  ∧ NoDup (diffProcessTypes old new)
  ∧ ((∀ t, t ∈ map Type_ old ↔ t ∈ ["web"; "worker"; "clock"]) →
     (∀ t, t ∈ map Type_ new ↔ t ∈ ["web"; "worker"]) →
     diffProcessTypes old new = ["clock"]).
Proof.
  split; [apply diffProcessTypes_elem |].
  split; [apply diffProcessTypes_NoDup |].
  intros Hold Hnew.
  assert (Hin : ∀ t, t ∈ diffProcessTypes old new ↔ t = "clock").
  { intros t. rewrite diffProcessTypes_elem, Hold, Hnew.
    rewrite !elem_of_cons, !elem_of_nil. split.
    - intros [[->|[->|[->|[]]]] Hn]; [exfalso; apply Hn; auto..|done].
    - intros ->. split; [auto 6|]. intros [?|[?|[]]]; discriminate. }
  pose proof (diffProcessTypes_NoDup old new) as Hnd.
  destruct (diffProcessTypes old new) as [|a [|b l]].
  - specialize (Hin "clock"). rewrite elem_of_nil in Hin. exfalso. tauto.
  - f_equal. apply Hin. left.
  - exfalso. assert (a = "clock") as -> by (apply Hin; left).
    assert (b = "clock") as -> by (apply Hin; right; left).
    apply NoDup_cons in Hnd as [Hnotin _]. apply Hnotin. left.
Qed.

End Diff.

Lemma diffProcessTypes_is_set_difference_witness :
  @diffProcessTypes canonicalRange
    [proc "web"; proc "worker"; proc "clock"] [proc "web"; proc "worker"] = ["clock"].
Proof.
  apply (@diffProcessTypes_is_set_difference canonicalRange
           [proc "web"; proc "worker"; proc "clock"] [proc "web"; proc "worker"]).
  - intros t. reflexivity.
  - intros t. reflexivity.
Defined.

(** ** Configuration validation *)

Lemma firstMissing_None (c : Config) :
  firstMissing c = None ↔
  Cluster c ≠ "" ∧ ServiceRole c ≠ "" ∧ ZoneID c ≠ ""
  ∧ InternalSecurityGroupID c ≠ "" ∧ ExternalSecurityGroupID c ≠ ""
  ∧ InternalSubnetIDs c ≠ [] ∧ ExternalSubnetIDs c ≠ [].
Proof.
  unfold firstMissing, requiredFields.
  repeat (rewrite filter_cons; simpl).
  repeat case_bool_decide; repeat case_decide; simpl;
    try congruence; split; try discriminate; try tauto; intros; intuition congruence.
Qed.

(** C9. When one of Cluster, ServiceRole, ZoneID, InternalSecurityGroupID,
    ExternalSecurityGroupID, InternalSubnetIDs, ExternalSubnetIDs is
    missing, [NewLoadBalancedScheduler] returns the error naming the first
    missing one, constructs no backend client and returns no scheduler;
    when none is missing validation passes and the scheduler is built. *)
Theorem NewLoadBalancedScheduler_validates (c : Config) :
  match firstMissing c with
  | Some n =>
    validateLoadBalancedConfig c = Some (ErrorString (n +:+ " is required"))
    ∧ NewLoadBalancedScheduler c
      = ([], (None, Some (ErrorString (n +:+ " is required"))))
  | None =>
    validateLoadBalancedConfig c = None
    ∧ ∃ s, NewLoadBalancedScheduler c
           = ([NewClient (AWS c); NewELBManager (AWS c); NewRoute53Nameserver (AWS c)],
              (Some s, None))
  end.
Proof.
  unfold NewLoadBalancedScheduler, validateLoadBalancedConfig, firstMissing, requiredFields.
  repeat (rewrite filter_cons; simpl).
  destruct (InternalSubnetIDs c) eqn:E1, (ExternalSubnetIDs c) eqn:E2;
    repeat case_bool_decide; repeat case_decide; simpl in *;
    try congruence; try (split; reflexivity); try (split; [reflexivity | eauto]).
Qed.

(** ** [Submit] *)

Section SubmitFacts.
Context `{MapRange} `{ProcessManager}.

Lemma faithful_app (h evs1 evs2 : list PMEvent) :
  faithful h (evs1 ++ evs2) ↔ faithful h evs1 ∧ faithful (h ++ evs1) evs2.
Proof.
  revert h. induction evs1 as [|ev evs1 IH]; intros h; simpl.
  - rewrite app_nil_r. tauto.
  - rewrite IH, <- app_assoc. simpl. tauto.
Qed.

Lemma Submit_create_log (app : App) (ps : list Process) (h : list PMEvent) :
  ∃ evs res,
    Submit_create app ps h = (res, h ++ evs)
    ∧ attempts (EvCreateProcess app) ps evs res
    ∧ faithful h evs.
Proof.
  revert h. induction ps as [|p ps IH]; intros h; simpl.
  - exists [], None. rewrite app_nil_r. repeat split. constructor.
  - unfold CreateProcess_call.
    destruct (PM_CreateProcess h app p) as [err|] eqn:E.
    + exists [EvCreateProcess app p (Some err)], (Some err).
      repeat split; simpl; [constructor | done].
    + destruct (IH (h ++ [EvCreateProcess app p None])) as (evs & res & Heq & Hatt & Hf).
      exists (EvCreateProcess app p None :: evs), res.
      rewrite Heq, <- app_assoc. simpl. repeat split; [by constructor | done | done].
Qed.

Lemma Submit_remove_log (appID : string) (ts : list string) (h : list PMEvent) :
  ∃ evs res,
    Submit_remove appID ts h = (res, h ++ evs)
    ∧ attempts (EvRemoveProcess appID) ts evs res
    ∧ faithful h evs.
Proof.
  revert h. induction ts as [|t ts IH]; intros h; simpl.
  - exists [], None. rewrite app_nil_r. repeat split. constructor.
  - unfold RemoveProcess_call.
    destruct (PM_RemoveProcess h appID t) as [err|] eqn:E.
    + exists [EvRemoveProcess appID t (Some err)], (Some err).
      repeat split; simpl; [constructor | done].
    + destruct (IH (h ++ [EvRemoveProcess appID t None])) as (evs & res & Heq & Hatt & Hf).
      exists (EvRemoveProcess appID t None :: evs), res.
      rewrite Heq, <- app_assoc. simpl. repeat split; [by constructor | done | done].
Qed.

(** The shape of a sequence of attempts: every item in order when all
    went through; otherwise the items before the failing one, then it. *)
Lemma attempts_shape {X : Type} (ev : X → error → PMEvent)
    (items : list X) (evs : list PMEvent) (res : error) :
  attempts ev items evs res →
  match res with
  | None => evs = map (fun x => ev x None) items
  | Some err =>
    ∃ before x after,
      items = before ++ x :: after
      ∧ evs = map (fun x => ev x None) before ++ [ev x (Some err)]
  end.
Proof.
  induction 1 as [|x items evs res _ IH|x items err]; simpl.
  - done.
  - destruct res as [err|].
    + destruct IH as (before & y & after & -> & ->).
      by exists (x :: before), y, after.
    + by rewrite IH.
  - by exists [], x, items.
Qed.

(** C2, as amended.  [Submit] first lists the provisioned processes.
    When the listing fails it returns that error and calls neither
    [CreateProcess] nor [RemoveProcess].  Otherwise it calls
    [CreateProcess] for the processes of the app in declaration order; the
    first failing creation ends the call with that error: nothing is
    created after it, nothing is removed, nothing is undone.  Only when
    every creation went through does it call [RemoveProcess], once for each
    listed type absent from the declaration, stopping at the first removal
    that fails and returning its error. *)
Theorem Submit_call_sequence (app : App) (h : list PMEvent) :
  ∃ listed lerr evs res,
    Submit app h = (res, h ++ EvProcesses (ID app) (listed, lerr) :: evs)
    ∧ faithful h (EvProcesses (ID app) (listed, lerr) :: evs)
    ∧ match lerr with
      | Some e => evs = [] ∧ res = Some e
      | None =>
        ∃ cevs cres revs,
          evs = cevs ++ revs
          ∧ attempts (EvCreateProcess app) (Processes app) cevs cres
          ∧ match cres with
            | Some e => revs = [] ∧ res = Some e
            | None =>
              ∃ toRemove,
                NoDup toRemove
                ∧ (∀ t, t ∈ toRemove
                        ↔ t ∈ map Type_ listed ∧ t ∉ map Type_ (Processes app))
                ∧ attempts (EvRemoveProcess (ID app)) toRemove revs res
            end
      end.
Proof.
  unfold Submit, Processes_call. cbv zeta.
  destruct (PM_Processes h (ID app)) as [listed lerr] eqn:EP.
  destruct lerr as [e|].
  - exists listed, (Some e), [], (Some e). simpl. rewrite EP. repeat split.
  - destruct (Submit_create_log app (Processes app)
                (h ++ [EvProcesses (ID app) (listed, None)]))
      as (cevs & cres & Hc & Hcatt & Hcf).
    destruct cres as [e|].
    + exists listed, None, cevs, (Some e). rewrite Hc, <- app_assoc. simpl.
      rewrite EP. repeat split; [done|].
      exists cevs, (Some e), []. by rewrite app_nil_r.
    + destruct (Submit_remove_log (ID app)
                  (diffProcessTypes listed (Processes app))
                  ((h ++ [EvProcesses (ID app) (listed, None)]) ++ cevs))
        as (revs & res & Hr & Hratt & Hrf).
      exists listed, None, (cevs ++ revs), res.
      rewrite Hc, Hr, <- !app_assoc. simpl. rewrite EP.
      repeat split.
      * apply faithful_app. by split.
      * exists cevs, None, revs. repeat split; [done|].
        exists (diffProcessTypes listed (Processes app)).
        split; [apply diffProcessTypes_NoDup|].
        split; [apply diffProcessTypes_elem | done].
Qed.

End SubmitFacts.

(** On [workerFails], submitting web, worker, cron lists the processes,
    creates web, fails on worker, and stops: cron is not created and the
    stale clock is not removed. *)
Example Submit_stops_at_failed_creation :
  @Submit canonicalRange workerFails acme []
  = (Some (ErrorString "no capacity"),
     [ EvProcesses "acme" ([proc "web"; proc "clock"], None);
       EvCreateProcess acme (proc "web") None;
       EvCreateProcess acme (proc "worker") (Some (ErrorString "no capacity")) ]).
Proof. reflexivity. Qed.

(** The claim as first stated has every declared process created unless
    a creation fails, and every stale type removed.  On [listingFails]
    no creation fails and yet web is never created; on [removalFails]
    the stale mailer and clock are not both removed. *)
Lemma Submit_not_always_creating_and_removing :
  ¬ (∀ (pm : ProcessManager) (app : App) (res : error) (log : list PMEvent),
       @Submit canonicalRange pm app [] = (res, log) →
       (∀ p e, EvCreateProcess app p (Some e) ∉ log) →
       (∀ p, p ∈ Processes app → ∃ r, EvCreateProcess app p r ∈ log)
       ∧ (∀ listed t, EvProcesses (ID app) (listed, None) ∈ log →
            t ∈ map Type_ listed → t ∉ map Type_ (Processes app) →
            ∃ r, EvRemoveProcess (ID app) t r ∈ log)).
Proof.
  intros Hclaim.
  destruct (Hclaim listingFails acme (Some (ErrorString "throttled"))
              [EvProcesses "acme" ([], Some (ErrorString "throttled"))]
              eq_refl) as [Hcreate _].
  - intros p e Hin. apply list_elem_of_singleton in Hin. discriminate.
  - destruct (Hcreate (proc "web")) as [r Hin]; [left|].
    apply list_elem_of_singleton in Hin. discriminate.
Qed.

Example Submit_stops_at_failed_removal :
  exists t,
    @Submit canonicalRange removalFails webOnly []
    = (Some (ErrorString "service is draining"),
       [ EvProcesses "acme" ([proc "clock"; proc "mailer"], None);
         EvCreateProcess webOnly (proc "web") None;
         EvRemoveProcess "acme" t (Some (ErrorString "service is draining")) ]).
Proof. eexists. vm_compute. reflexivity. Qed.

(** ** [RemoveProcess] *)

Lemma noService_spec (err : error) :
  noService err = true
  ↔ ∃ code message, err = Some (AwsError code message) ∧ message ∈ notFoundMessages.
Proof.
  unfold noService, notFoundMessages. split.
  - destruct err as [[code message|message]|]; try discriminate.
    intros Hm. exists code, message. split; [done|].
    repeat case_decide; try discriminate; subst; rewrite !elem_of_cons; auto.
  - intros (code & message & -> & Hin).
    rewrite !elem_of_cons, elem_of_nil in Hin.
    repeat case_decide; try done. intuition congruence.
Qed.

(** C3. [RemoveProcess] first scales the service to zero; when that went
    through it deletes the service.  A failure of either step that
    [noService] classifies as not found (an AWS error with one of the known
    messages) gives no error; any other failure is returned as it is. *)
Theorem RemoveProcess_not_found_is_success `{EcsClient}
    (m : ecsProcessManager) (app process : string) (h : list EcsEvent) :
  let scale := {| usCluster := Some (cluster m); usDesiredCount := Some 0;
                  usService := Some process; usTaskDefinition := None |} in
  let serr := UpdateAppService h app scale in
  let h1 := h ++ [EvUpdateAppService app scale serr] in
  let delete := {| dsCluster := Some (cluster m); dsService := Some process |} in
  let derr := DeleteAppService h1 app delete in
  (∀ err, noService err = true
          ↔ ∃ code message,
              err = Some (AwsError code message) ∧ message ∈ notFoundMessages)
  ∧ match serr with
    | Some e =>
      RemoveProcess m app process h
      = (if noService (Some e) then None else Some e, h1)
    | None =>
      RemoveProcess m app process h
      = (if noService derr then None else derr,
         h1 ++ [EvDeleteAppService app delete derr])
    end.
Proof.
  intros scale serr h1 delete derr. split; [apply noService_spec|].
  unfold RemoveProcess, Scale. change (to_int64 0) with 0.
  fold scale. fold serr. fold h1.
  destruct serr as [e|] eqn:Es.
  - destruct (noService (Some e)); reflexivity.
  - simpl. fold delete. fold derr. destruct (noService derr); reflexivity.
Qed.

Example RemoveProcess_absent_service :
  @RemoveProcess noSuchService manager "acme" "clock" []
  = (None,
     [ EvUpdateAppService "acme"
         {| usCluster := Some "empire"; usDesiredCount := Some 0;
            usService := Some "clock"; usTaskDefinition := None |}
         (Some (AwsError "ClientException" "Service not found.")) ]).
Proof. reflexivity. Qed.

Example RemoveProcess_inactive_on_delete :
  fst (@RemoveProcess inactiveOnDelete manager "acme" "clock" []) = None
  ∧ length (snd (@RemoveProcess inactiveOnDelete manager "acme" "clock" [])) = 2%nat.
Proof. split; reflexivity. Qed.

Example RemoveProcess_other_error :
  fst (@RemoveProcess accessDenied manager "acme" "clock" [])
  = Some (AwsError "AccessDeniedException" "User is not authorized").
Proof. reflexivity. Qed.

End EcsFacts.

(** ** The ELB manager *)

Module LbFacts.
Import Lb Examples.

Section CreateFacts.
Context `{MapRange} `{ELBClient}.

(** The input [CreateLoadBalancer] hands to the backend. *)
Lemma CreateLoadBalancer_first_call (m : ELBManager) (o : CreateLoadBalancerOpts)
    (h : list ELBEvent) :
  ∃ input rest,
    snd (CreateLoadBalancer m o h)
    = h ++ EvCreateLoadBalancer input (ELB_CreateLoadBalancer h input) :: rest
    ∧ clbListeners input = elbListeners (optsInstancePort o) (optsSSLCert o)
    ∧ (rest = [] ∨ ∃ attrs err, rest = [EvModifyLoadBalancerAttributes attrs err]).
Proof.
  unfold CreateLoadBalancer.
  destruct (optsExternal o); cbv zeta;
    match goal with
    | |- context [ELB_CreateLoadBalancer h ?i] =>
      exists i; destruct (ELB_CreateLoadBalancer h i) as [out [e|]] eqn:Ec
    end.
  1, 3: exists []; simpl; auto.
  all: match goal with
       | |- context [ELB_ModifyLoadBalancerAttributes ?h1 ?a] =>
         destruct (ELB_ModifyLoadBalancerAttributes h1 a) as [e|] eqn:Em;
           exists [EvModifyLoadBalancerAttributes a (ELB_ModifyLoadBalancerAttributes h1 a)]
       end.
  all: rewrite Em; simpl; rewrite <- app_assoc; simpl; split; [done|]; split; eauto.
Qed.

(** C5. The one creation call [CreateLoadBalancer] makes on the backend
    carries an HTTP listener on port 80 forwarding to the instance port,
    followed by an HTTPS listener on port 443 with the certificate,
    forwarding to the same port, exactly when the certificate is not
    empty; it carries no other listener. *)
Theorem CreateLoadBalancer_listeners (m : ELBManager) (o : CreateLoadBalancerOpts)
    (h : list ELBEvent) :
  let http := {| lInstancePort := Some (optsInstancePort o);
                 lInstanceProtocol := Some "http";
                 lLoadBalancerPort := Some 80;
                 lProtocol := Some "http";
                 lSSLCertificateId := None |} in
  let https := {| lInstancePort := Some (optsInstancePort o);
                  lInstanceProtocol := Some "http";
                  lLoadBalancerPort := Some 443;
                  lProtocol := Some "https";
                  lSSLCertificateId := Some (optsSSLCert o) |} in
  ∃ input res rest,
    snd (CreateLoadBalancer m o h) = h ++ EvCreateLoadBalancer input res :: rest
    ∧ (∀ input' res', EvCreateLoadBalancer input' res' ∉ rest)
    ∧ clbListeners input
      = (if decide (optsSSLCert o = "") then [http] else [http; https])
    ∧ http ∈ clbListeners input
    ∧ (https ∈ clbListeners input ↔ optsSSLCert o ≠ "")
    ∧ (∀ l, l ∈ clbListeners input → l = http ∨ l = https).
Proof.
  intros http https.
  destruct (CreateLoadBalancer_first_call m o h) as (input & rest & Hlog & Hl & Hrest).
  exists input, (ELB_CreateLoadBalancer h input), rest.
  split; [done|]. split.
  { intros input' res' Hin. destruct Hrest as [-> | (attrs & err & ->)].
    - by apply elem_of_nil in Hin.
    - apply list_elem_of_singleton in Hin. discriminate. }
  rewrite Hl. unfold elbListeners. fold http.
  destruct (decide (optsSSLCert o = "")) as [E|E].
  - rewrite decide_False by (intros Hne; by apply Hne).
    split; [done|]. split; [left|]. split.
    + split; [|done]. intros Hin. apply list_elem_of_singleton in Hin.
      discriminate.
    + intros l Hin. apply list_elem_of_singleton in Hin. auto.
  - rewrite decide_True by done. simpl. fold https.
    split; [done|]. split; [left|]. split.
    + split; [done|]. intros _. right. left.
    + intros l Hin. rewrite !elem_of_cons, elem_of_nil in Hin. tauto.
Qed.

(** C6. When the backend creates the load balancer but the attribute
    update that follows fails, [CreateLoadBalancer] returns that error and
    no load balancer; the log holds the successful creation and the failed
    update, and no call after them. *)
Theorem CreateLoadBalancer_attribute_failure (m : ELBManager)
    (o : CreateLoadBalancerOpts) (h : list ELBEvent)
    (out : CreateLoadBalancerOutput) (e : GoError) :
  let input :=
    {| clbListeners := elbListeners (optsInstancePort o) (optsSSLCert o);
       clbLoadBalancerName := Some (newName m h);
       clbScheme := Some (if optsExternal o then "internet-facing" else "internal");
       clbSecurityGroups :=
         [Some (if optsExternal o then ExternalSecurityGroupID m
                else InternalSecurityGroupID m)];
       clbSubnets :=
         map Some (if optsExternal o then ExternalSubnetIDs m else InternalSubnetIDs m);
       clbTags := elbTags (optsTags o) |} in
  let h1 := h ++ [EvCreateLoadBalancer input (out, None)] in
  let attrs :=
    {| mlbLoadBalancerAttributes :=
         Some {| attrConnectionDraining :=
                   Some {| cdEnabled := Some true; cdTimeout := Some 30 |};
                 attrCrossZoneLoadBalancing := Some {| czEnabled := Some true |} |};
       mlbLoadBalancerName := Some (newName m h) |} in
  ELB_CreateLoadBalancer h input = (out, None) →
  ELB_ModifyLoadBalancerAttributes h1 attrs = Some e →
  CreateLoadBalancer m o h
  = (Returned (None, Some e), h1 ++ [EvModifyLoadBalancerAttributes attrs (Some e)]).
Proof.
  intros input h1 attrs Ec Em. subst input h1 attrs.
  unfold CreateLoadBalancer.
  destruct (optsExternal o);
    cbv beta iota zeta delta
      [schemeExternal schemeInternal externalSubnets internalSubnets
       awsStringSlice defaultConnectionDrainingTimeout clbLoadBalancerName] in *;
    rewrite Ec, Em; reflexivity.
Qed.

End CreateFacts.

Lemma CreateLoadBalancer_attribute_failure_witness :
  fst (@CreateLoadBalancer canonicalRange attributesRefused elbManager secureWeb [])
  = Returned (None, Some (AwsError "Throttling" "Rate exceeded")).
Proof.
  rewrite (@CreateLoadBalancer_attribute_failure canonicalRange attributesRefused
             elbManager secureWeb []
             {| clbDNSName := Some "acme-1.us-east-1.elb.amazonaws.com" |}
             (AwsError "Throttling" "Rate exceeded") eq_refl eq_refl).
  reflexivity.
Defined.

End LbFacts.

(** ** Task definitions *)

Module TaskDefinitionFacts.
Import Ecs Examples.

Lemma foldl_snoc_map {A B : Type} (f : A → B) (l : list A) (acc : list B) :
  foldl (fun (acc : list B) x => acc ++ [f x]) acc l = acc ++ map f l.
Proof.
  revert acc. induction l as [|x l IH]; intros acc; simpl.
  - by rewrite app_nil_r.
  - by rewrite IH, <- app_assoc.
Qed.

(** Assignments [m[k] = v] in sequence: later ones override earlier ones. *)
Lemma foldl_insert_list_to_map (l : list (string * string)) (acc : gmap string string) :
  foldl (fun (m : gmap string string) '(k, v) => <[k := v]> m) acc l
  = list_to_map (reverse l) ∪ acc.
Proof.
  revert acc. induction l as [|[k v] l IH]; intros acc; simpl.
  - by rewrite (left_id_L ∅ (∪)).
  - rewrite IH, reverse_cons, list_to_map_app. simpl.
    rewrite <- (assoc_L (∪)). f_equal.
    rewrite insert_empty. by rewrite <- insert_union_singleton_l.
Qed.

Lemma foldl_insert_range `{MapRange} (m : gmap string string) :
  foldl (fun (m : gmap string string) '(k, v) => <[k := v]> m) ∅ (rangeMap m) = m.
Proof.
  rewrite foldl_insert_list_to_map, (right_id_L ∅ (∪)).
  rewrite <- (list_to_map_to_list m) at 2.
  apply list_to_map_proper.
  - rewrite fmap_reverse, reverse_Permutation. apply EcsFacts.rangeMap_keys_NoDup.
  - rewrite reverse_Permutation. apply rangeMap_perm.
Qed.

Lemma commandStrings_present (cmd : list string) (acc : list string) :
  commandStrings (map Some cmd) acc = Returned (acc ++ cmd).
Proof.
  revert acc. induction cmd as [|s cmd IH]; intros acc; simpl.
  - by rewrite app_nil_r.
  - change (commandStrings (map Some cmd) (acc ++ [s]) = Returned (acc ++ s :: cmd)).
    by rewrite IH, <- app_assoc.
Qed.

Lemma environment_fold (env : list (option KeyValuePair)) (acc : gmap string string) :
  foldl (fun (env : gmap string string) kvp =>
           match kvp with
           | Some kvp => <[safeString (kvName kvp) := safeString (kvValue kvp)]> env
           | None => env
           end) acc env
  = foldl (fun (m : gmap string string) '(k, v) => <[k := v]> m) acc
      (omap (fmap (M := option)
               (fun kvp => (safeString (kvName kvp), safeString (kvValue kvp)))) env).
Proof.
  revert acc. induction env as [|[kvp|] env IH]; intros acc; simpl; [done | apply IH..].
Qed.

Section Conversions.
Context `{Bytesize}.

Lemma uintBits_pos : 0 < 2 ^ uintBits ≤ 2 ^ 64.
Proof. destruct uintBits_cases as [-> | ->]; lia. Qed.

Lemma to_uint_to_int64 (x : Z) : 0 ≤ x < 2 ^ uintBits → to_uint (to_int64 x) = x.
Proof.
  intros Hx. unfold to_uint, to_int64.
  pose proof uintBits_pos as Hw.
  destruct (decide (x < 2 ^ 63)) as [Hlt | Hge].
  - rewrite (Z.mod_small (x + 2 ^ 63)) by lia.
    replace (x + 2 ^ 63 - 2 ^ 63) with x by lia. apply Z.mod_small. lia.
  - assert (uintBits = 64) as Hb.
    { destruct uintBits_cases as [Hb | Hb]; [rewrite Hb in Hx; lia | done]. }
    rewrite Hb in *.
    replace (x + 2 ^ 63) with (x - 2 ^ 63 + 1 * 2 ^ 64) by lia.
    rewrite Z.mod_add by lia. rewrite (Z.mod_small (x - 2 ^ 63)) by lia.
    replace (x - 2 ^ 63 - 2 ^ 63) with (x + (-1) * 2 ^ 64) by lia.
    rewrite Z.mod_add by lia. apply Z.mod_small. lia.
Qed.

Lemma memory_there_and_back (m : Z) :
  0 ≤ m < 2 ^ uintBits →
  to_uint (to_uint (to_int64 (m / MB)) * MB) = m / MB * MB.
Proof.
  intros Hm. pose proof MB_range as HMB.
  assert (0 ≤ m / MB ≤ m).
  { split; [apply Z.div_pos; lia|]. apply Z.div_le_upper_bound; nia. }
  assert (m / MB * MB ≤ m) by (rewrite Z.mul_comm; apply Z.mul_div_le; lia).
  rewrite to_uint_to_int64 by lia.
  unfold to_uint. apply Z.mod_small. nia.
Qed.

(** The process rebuilt from a container definition whose CPU, memory and
    command words are all present. *)
Lemma taskDefinitionToProcess_present (fam : option string)
    (c : ContainerDefinition) (rest : list ContainerDefinition)
    (cpu memory : Z) (command : list string) :
  cdCpu c = Some cpu → cdMemory c = Some memory → cdCommand c = map Some command →
  taskDefinitionToProcess {| tdFamily := fam; tdContainerDefinitions := c :: rest |}
  = Returned
      (Some {| Type_ := safeString (cdName c);
               Image := "";
               Command := Join command " ";
               Env := list_to_map
                        (reverse (omap (fmap (M := option)
                                          (fun kvp => (safeString (kvName kvp),
                                                       safeString (kvValue kvp))))
                                       (cdEnvironment c)));
               Ports := [];
               Instances := 0;
               MemoryLimit := ((memory mod 2 ^ uintBits) * MB) mod 2 ^ uintBits;
               CPUShares := cpu mod 2 ^ uintBits;
               LoadBalancer := "" |}, None).
Proof.
  intros Ecpu Emem Ecmd. unfold taskDefinitionToProcess. simpl.
  rewrite Ecmd, commandStrings_present, Ecpu, Emem. simpl.
  rewrite environment_fold, foldl_insert_list_to_map, (right_id_L ∅ (∪)).
  reflexivity.
Qed.


End Conversions.



End TaskDefinitionFacts.
